(** * Simulation-based combinational equivalence checking

    A shallow embedding of [mockturtle/algorithms/simulation_cec.hpp]:
    the split planner ([max_m_], [split_var_], [rounds_]), the pattern
    generator ([get_pattern_]), the equivalence aggregator
    ([is_equivalent_]), the simulation driver ([run]) and the entry point
    ([simulation_cec]).

    Conventions.  Unsigned machine integers are [Z] with the wrap-around
    written out ([wrap32], [wrap64], [wrap8]).  A computation whose C++
    behaviour is undefined yields [None]: a shift of an [int] by 32 or
    more, the increment of an [int] beyond [INT_MAX], a [double]
    converted to [uint32_t] out of range, a variable index outside a
    truth table, and control that flows off the end of a function
    declared to return a value. *)

From Stdlib Require Import ZArith QArith Qpower Lia Bool List.
From stdpp Require Import base option list list_numbers gmap.

Local Open Scope Z_scope.

(** ** Machine integers *)

Definition wrap32 (z : Z) : Z := z mod 2 ^ 32.
Definition wrap64 (z : Z) : Z := z mod 2 ^ 64.
Definition wrap8 (z : Z) : Z := z mod 2 ^ 8.

(** [a++] on an [int]: signed overflow is undefined. *)
Definition incr_int (a : Z) : option Z :=
  if a <? 2 ^ 31 - 1 then Some (a + 1) else None.

(** Control reaches the closing brace of a function declared to return a
    value: undefined, whatever the body has done. *)
Definition flows_off_end {A : Type} : option A := None.

(** [round_number >> k] on an [int]: undefined for [k >= 32]. *)
Definition shr_int (a k : Z) : option Z :=
  if 32 <=? k then None else Some (Z.shiftr a k).

(** Conversion of an integral [double] value to [uint32_t]: undefined
    when the truncated value is not representable. *)
Definition double_to_uint32 (t : Z) : option Z :=
  if (0 <=? t) && (t <? 2 ^ 32) then Some t else None.

(** ** Exact base-2 logarithm of a positive rational

    Modelled from the spec: [log], [pow] and the [double] division come
    from the C library and the hardware, not from the sources.  The
    quotient [pow(2,29)/size - 32] is taken as an exact rational and
    [log(x)/log(2)] as the exact real logarithm to base 2; only its
    integer part and whether it is an integer are ever needed. *)

(** [Qle_pow2 k q]: [2^k <= q], for any sign of [k]. *)
Definition Qle_pow2 (k : Z) (q : Q) : bool :=
  Zpos (Qden q) * 2 ^ Z.max 0 k <=? Qnum q * 2 ^ Z.max 0 (- k).

(** [Qeq_pow2 k q]: [q = 2^k]. *)
Definition Qeq_pow2 (k : Z) (q : Q) : bool :=
  Zpos (Qden q) * 2 ^ Z.max 0 k =? Qnum q * 2 ^ Z.max 0 (- k).

(** [floor (log2 q)] for [q > 0]. *)
Definition Qlog2_floor (q : Q) : Z :=
  let d := Z.log2 (Qnum q) - Z.log2 (Zpos (Qden q)) in
  if Qle_pow2 d q then d else d - 1.

(** Truncation toward zero of the real number [log2 q + c], as the
    conversion of a [double] to an integer type does. *)
Definition trunc_log2_plus (q : Q) (c : Z) : Z :=
  let fl := Qlog2_floor q in
  if (0 <=? fl + c) || Qeq_pow2 fl q then fl + c else fl + c + 1.

(** ** The split planner *)

(** [max_m_]: [log(pow(2, 29)/nodes.size() - 32) / log(2) + 3], converted
    to [uint32_t].  A zero size gives an infinite quotient and a
    non-positive argument of [log] gives minus infinity or a NaN: their
    conversion is undefined. *)
Definition max_m_ (size : Z) : option Z :=
  if size =? 0 then None
  else
    let x := (inject_Z (2 ^ 29) / inject_Z size - inject_Z 32)%Q in
    if Qnum x <=? 0 then None
    else double_to_uint32 (trunc_log2_plus x 3).

Definition split_var_ (size N : Z) : option Z :=
  max_m ← max_m_ size;
  Some (if max_m <? N then max_m else N).

(** [pow(2, N - split_var)] converted to [uint32_t]; the subtraction is
    done on [uint32_t].  From exponent 32 on the power (or the infinity
    that [pow] returns on overflow) is out of the range of [uint32_t]. *)
Definition rounds_ (N split_var : Z) : option Z :=
  let e := wrap32 (N - split_var) in
  if e <? 32 then double_to_uint32 (2 ^ e) else None.

(** The contract [plan(nodeCount, primaryInputCount)] of the planner: the
    two assignments to [_st] at the start of [run]. *)
Record simulation_cec_stats := Build_stats { split_var : Z; rounds : Z }.

Definition plan (size N : Z) : option simulation_cec_stats :=
  sv ← split_var_ size N;
  r ← rounds_ N sv;
  Some (Build_stats sv r).

(** ** Truth tables

    Modelled from the spec: kitty's [dynamic_truth_table] is not part of
    the sources.  A table over [num_vars] variables stores [num_bits]
    bits; [bits] is the integer whose bit [j], for [0 <= j < num_bits],
    is the value of the function at the assignment [j].  A table built
    for a number of variables stores [2^num_vars] bits; the
    default-constructed table has no variables and stores no bit at all.
    The capability set is the one of section 6 of the specification: the
    all-zero table of a width, the canonical variable pattern, the
    bitwise complement and the test for constant zero. *)
Record dynamic_truth_table :=
  Build_tt { num_vars : Z; num_bits : Z; bits : Z }.

(** [dynamic_truth_table tt(n)]: the all-zero table. *)
Definition new_truth_table (n : Z) : dynamic_truth_table :=
  Build_tt n (2 ^ n) 0.

(** [dynamic_truth_table()]: the empty table that a lookup of a missing
    node default-constructs. *)
Definition empty_truth_table : dynamic_truth_table := Build_tt 0 0 0.

(** The all-one table (the mask of the table). *)
Definition const1_table (n : Z) : dynamic_truth_table :=
  Build_tt n (2 ^ n) (Z.ones (2 ^ n)).

Fixpoint bits_of_fun (f : Z -> bool) (len : nat) : Z :=
  match len with
  | O => 0
  | S l => Z.lor (bits_of_fun f l) (if f (Z.of_nat l) then 2 ^ Z.of_nat l else 0)
  end.

(** The canonical pattern of variable [v]: bit [j] is bit [v] of [j]. *)
Definition nth_var (n v : Z) : dynamic_truth_table :=
  Build_tt n (2 ^ n)
    (bits_of_fun (fun j => Z.testbit j v) (Z.to_nat (2 ^ n))).

(** [create_nth_var(tt, var_index)]; the index has to name a variable of
    the table. *)
Definition create_nth_var (t : dynamic_truth_table) (var_index : Z)
  : option dynamic_truth_table :=
  if (0 <=? var_index) && (var_index <? num_vars t)
  then Some (nth_var (num_vars t) var_index) else None.

(** [~tt]: a fresh table for the same number of variables receives the
    complement of the stored bits and is masked to its width. *)
Definition unary_not (t : dynamic_truth_table) : dynamic_truth_table :=
  Build_tt (num_vars t) (2 ^ num_vars t)
    (Z.land (Z.lnot (bits t)) (Z.ones (num_bits t))).

Definition is_const0 (t : dynamic_truth_table) : bool := bits t =? 0.

(** ** Networks and collaborators *)

Definition node := Z.

(** The capabilities [simulation_cec] asserts of its template parameter. *)
Class Network (Ntk : Type) := {
  signal : Type;
  num_pis : Ntk -> Z;
  nodes_size : Ntk -> Z;
  foreach_pi : Ntk -> list node;
  foreach_po : Ntk -> list signal;
  get_node : Ntk -> signal -> node;
  is_complemented : Ntk -> signal -> bool
}.

(** The two collaborators: the miter builder of [miter.hpp] and the
    propagation engine of [simulation.hpp], run with a simulator of the
    given number of variables. *)
Class Collaborators (Ntk : Type) := {
  miter : Ntk -> Ntk -> option Ntk;
  simulate_nodes : Ntk -> gmap node dynamic_truth_table -> Z
                   -> gmap node dynamic_truth_table
}.

(** Calls to the collaborators and lines written to [std::cout]. *)
Inductive event :=
  | ev_miter
  | ev_cout (round_number : Z)
  | ev_simulate_nodes.

Fixpoint foldl_opt {A B} (f : A -> B -> option A) (a : A) (l : list B)
  : option A :=
  match l with
  | [] => Some a
  | b :: l => a' ← f a b; foldl_opt f a' l
  end.

Section impl.
Context {Ntk : Type} `{!Network Ntk} `{!Collaborators Ntk}.

(** [patterns[n]] on the [unordered_node_map]: a node without an entry
    gets a default-constructed table, which is inserted into the map. *)
Definition pattern_at (patterns : gmap node dynamic_truth_table) (n : node)
  : dynamic_truth_table * gmap node dynamic_truth_table :=
  match patterns !! n with
  | Some t => (t, patterns)
  | None => (empty_truth_table, <[n := empty_truth_table]> patterns)
  end.

(** ** The pattern generator *)

Definition get_pattern_ (st : simulation_cec_stats)
    (pi_number round_number : Z) (t : dynamic_truth_table)
  : option dynamic_truth_table :=
  if pi_number <=? split_var st then Some t
  else
    sh ← shr_int round_number (wrap64 (pi_number - split_var st - 1));
    if negb (Z.rem sh 2 =? 0) then Some t else Some (unary_not t).

(** The body of the [foreach_pi] callback of [run]. *)
Definition update_pi (st : simulation_cec_stats) (round_number : Z)
    (patterns : gmap node dynamic_truth_table) (pi_number : node)
  : option (gmap node dynamic_truth_table) :=
  let t := new_truth_table (split_var st) in
  t ← (if pi_number <=? split_var st
       then create_nth_var t (wrap8 (wrap64 (pi_number - 1)))
       else Some t);
  p ← get_pattern_ st pi_number round_number t;
  Some (<[pi_number := p]> patterns).

(** ** The equivalence aggregator *)

(** The [foreach_po] loop of [is_equivalent_]: its effect on the verdict
    and on the pattern map, both passed by reference. *)
Definition is_equivalent_body (is_equivalent : bool) (ntk : Ntk)
    (patterns : gmap node dynamic_truth_table)
  : bool * gmap node dynamic_truth_table :=
  foldl (fun '(is_equivalent, patterns) f =>
           let '(t, patterns) := pattern_at patterns (get_node ntk f) in
           if is_complemented ntk f
           then (is_equivalent && is_const0 (unary_not t), patterns)
           else (is_equivalent && is_const0 t, patterns))
        (is_equivalent, patterns) (foreach_po ntk).

(** [is_equivalent_] is declared [bool] and has no [return] statement:
    after the loop, control flows off the end of the function.  A
    returning call would yield the returned value, the verdict and the
    pattern map. *)
Definition is_equivalent_ (is_equivalent : bool) (ntk : Ntk)
    (patterns : gmap node dynamic_truth_table)
  : option (bool * bool * gmap node dynamic_truth_table) :=
  let '(is_equivalent, patterns) := is_equivalent_body is_equivalent ntk patterns in
  flows_off_end.

(** ** The simulation driver *)

(** The locals of [run] that the loop updates, and the events so far. *)
Record run_state := Build_run_state {
  rs_is_equivalent : bool;
  rs_patterns : gmap node dynamic_truth_table;
  rs_events : list event
}.

(** One iteration of the round loop. *)
Definition round_body (ntk : Ntk) (st : simulation_cec_stats)
    (round_number : Z) (s : run_state) : option run_state :=
  let evs := rs_events s ++ [ev_cout round_number] in
  ps ← foldl_opt (update_pi st round_number) (rs_patterns s) (foreach_pi ntk);
  let ps := simulate_nodes ntk ps (split_var st) in
  let evs := evs ++ [ev_simulate_nodes] in
  '(_, is_equivalent, ps) ← is_equivalent_ (rs_is_equivalent s) ntk ps;
  Some (Build_run_state is_equivalent ps evs).

(** [for (auto round_number = 0; round_number < _st.rounds; round_number++)]:
    the counter is an [int], converted to [uint32_t] for the comparison.
    [fuel] bounds the number of iterations; [run] supplies [rounds] of
    it. *)
Fixpoint for_rounds (fuel : nat) (ntk : Ntk) (st : simulation_cec_stats)
    (round_number : Z) (s : run_state) : option run_state :=
  if wrap32 round_number <? rounds st then
    match fuel with
    | O => None
    | S fuel =>
        s' ← round_body ntk st round_number s;
        round_number ← incr_int round_number;
        for_rounds fuel ntk st round_number s'
    end
  else Some s.

Definition run (ntk : Ntk) (st : simulation_cec_stats) (evs : list event)
  : option (bool * simulation_cec_stats * list event) :=
  let is_equivalent := true in
  sv ← split_var_ (nodes_size ntk) (num_pis ntk);
  let st := Build_stats sv (rounds st) in
  r ← rounds_ (num_pis ntk) (split_var st);
  let st := Build_stats (split_var st) r in
  let patterns : gmap node dynamic_truth_table := ∅ in
  s ← for_rounds (Z.to_nat (rounds st)) ntk st 0
        (Build_run_state is_equivalent patterns evs);
  Some (rs_is_equivalent s, st, rs_events s).

(** ** The entry point

    [pst] is the optional out-parameter: [None] for a null pointer,
    [Some s] for a pointer to a structure that holds [s]. *)
Record outcome := Build_outcome {
  result : option bool;
  pst_after : option simulation_cec_stats;
  trace : list event
}.

Definition simulation_cec (ntk1 ntk2 : Ntk) (pst : option simulation_cec_stats)
  : option outcome :=
  let st := Build_stats 0 0 in
  let result := false in
  if 40 <? num_pis ntk1 then Some (Build_outcome None pst [])
  else
    let ntk_miter := miter ntk1 ntk2 in
    '(result, st, evs) ← match ntk_miter with
                         | Some m => run m st [ev_miter]
                         | None => Some (result, st, [ev_miter])
                         end;
    Some (Build_outcome (Some result)
            (match pst with Some _ => Some st | None => None end) evs).

End impl.

(** ** A concrete network type

    Modelled from the spec: the network data structure, the miter builder
    and the propagation engine are collaborators outside the sources.
    [netlist] is a small and-inverter graph on which the definitions are
    evaluated: node 0 is the constant, nodes [1..nl_num_pis] are the
    primary inputs, the gates follow in topological order.  [nl_size] is
    the size of the node storage. *)
Module Netlist.

Record aig_signal := Build_signal { index : node; complement : bool }.

Record netlist := Build_netlist {
  nl_size : Z;
  nl_num_pis : Z;
  nl_gates : list (node * aig_signal * aig_signal);
  nl_pos : list aig_signal
}.

#[export] Instance netlist_network : Network netlist := {|
  signal := aig_signal;
  num_pis := nl_num_pis;
  nodes_size := nl_size;
  foreach_pi := fun ntk => seqZ 1 (nl_num_pis ntk);
  foreach_po := nl_pos;
  get_node := fun _ f => index f;
  is_complemented := fun _ f => complement f
|}.

Definition value (ps : gmap node dynamic_truth_table) (f : aig_signal)
  : dynamic_truth_table :=
  let v := default empty_truth_table (ps !! index f) in
  if complement f then unary_not v else v.

Definition tt_and (a b : dynamic_truth_table) : dynamic_truth_table :=
  Build_tt (num_vars a) (num_bits a) (Z.land (bits a) (bits b)).

(** Every gate is recomputed from its fan-in, in order. *)
Definition nl_simulate (ntk : netlist) (ps : gmap node dynamic_truth_table)
    (n : Z) : gmap node dynamic_truth_table :=
  foldl (fun ps '(id, a, b) => <[id := tt_and (value ps a) (value ps b)]> ps)
        (<[0 := new_truth_table n]> ps) (nl_gates ntk).

Definition shift_signal (N off : Z) (f : aig_signal) : aig_signal :=
  if index f <=? N then f else Build_signal (index f + off) (complement f).

Definition negate (f : aig_signal) : aig_signal :=
  Build_signal (index f) (negb (complement f)).

(** The outputs of the miter are the pairwise exclusive ors of the
    outputs; networks with different interfaces have no miter. *)
Definition nl_miter (ntk1 ntk2 : netlist) : option netlist :=
  if (nl_num_pis ntk1 =? nl_num_pis ntk2)
     && (Z.of_nat (length (nl_pos ntk1)) =? Z.of_nat (length (nl_pos ntk2)))
  then
    let N := nl_num_pis ntk1 in
    let g1 := Z.of_nat (length (nl_gates ntk1)) in
    let g2 := Z.of_nat (length (nl_gates ntk2)) in
    let sh := shift_signal N g1 in
    let gates2 := (fun '(id, a, b) => (id + g1, sh a, sh b)) <$> nl_gates ntk2 in
    let base := N + 1 + g1 + g2 in
    let xor_gates :=
      imap (fun k '(o1, o2) =>
              let n := base + 3 * Z.of_nat k in
              [ (n, o1, negate o2);
                (n + 1, negate o1, o2);
                (n + 2, Build_signal n true, Build_signal (n + 1) true) ])
           (zip (nl_pos ntk1) (sh <$> nl_pos ntk2)) in
    Some (Build_netlist
            (nl_size ntk1 + nl_size ntk2 - (1 + N)
             + 3 * Z.of_nat (length (nl_pos ntk1)))
            N
            (nl_gates ntk1 ++ gates2 ++ concat xor_gates)
            (imap (fun k _ => Build_signal (base + 3 * Z.of_nat k + 2) true)
                  (nl_pos ntk1)))
  else None.

#[export] Instance netlist_collaborators : Collaborators netlist := {|
  miter := nl_miter;
  simulate_nodes := nl_simulate
|}.

(** [a AND b] and [a OR b] over two inputs; a wire; a network with 41
    inputs; a one-output network over three inputs in a large storage. *)
Definition and2 : netlist :=
  Build_netlist 4 2 [(3, Build_signal 1 false, Build_signal 2 false)]
    [Build_signal 3 false].
Definition or2 : netlist :=
  Build_netlist 4 2 [(3, Build_signal 1 true, Build_signal 2 true)]
    [Build_signal 3 true].
Definition two_outputs : netlist :=
  Build_netlist 3 2 [] [Build_signal 1 false; Build_signal 2 false].
Definition wide41 : netlist :=
  Build_netlist 42 41 [] [Build_signal 1 false].
Definition and3_big (size : Z) : netlist :=
  Build_netlist size 3
    [(4, Build_signal 1 false, Build_signal 2 false);
     (5, Build_signal 4 false, Build_signal 3 false)]
    [Build_signal 5 false].
Definition or3_big (size : Z) : netlist :=
  Build_netlist size 3
    [(4, Build_signal 1 true, Build_signal 2 true);
     (5, Build_signal 4 false, Build_signal 3 true)]
    [Build_signal 5 true].

End Netlist.

(** A network type with two constant nodes, as the k-LUT networks have:
    the primary inputs are the nodes [2, ..., kl_num_pis + 1].  The
    outputs play no part where it is used. *)
Module TwoConstants.

Record two_constants := Build_two_constants { kl_size : Z; kl_num_pis : Z }.

#[export] Instance two_constants_network : Network two_constants := {|
  signal := node;
  num_pis := kl_num_pis;
  nodes_size := kl_size;
  foreach_pi := fun ntk => seqZ 2 (kl_num_pis ntk);
  foreach_po := fun _ => [];
  get_node := fun _ f => f;
  is_complemented := fun _ _ => false
|}.

(** Two inputs and no gate. *)
Definition two_inputs : two_constants := Build_two_constants 4 2.

End TwoConstants.

(** ** The specification's formulas, as written *)

(** Section 4.1: [maxSplit = floor(log2(budget/nodeCount - overhead)) + 3]
    with a budget of [2^29] bits and an overhead of 32 bits per node. *)
Definition maxSplit (nodeCount : Z) : Z :=
  Qlog2_floor (inject_Z (2 ^ 29) / inject_Z nodeCount - inject_Z 32)%Q + 3.

Definition splitVarCount (nodeCount primaryInputCount : Z) : Z :=
  Z.min primaryInputCount (maxSplit nodeCount).

Definition roundCount (nodeCount primaryInputCount : Z) : Z :=
  2 ^ (primaryInputCount - splitVarCount nodeCount primaryInputCount).

(** Section 4.2: the rule of the pattern generator. *)
Definition pattern_rule (splitVarCount primaryInputIndex roundIndex : Z)
  : dynamic_truth_table :=
  if primaryInputIndex <=? splitVarCount
  then nth_var splitVarCount (primaryInputIndex - 1)
  else
    let bit := Z.land (Z.shiftr roundIndex (primaryInputIndex - splitVarCount - 1)) 1 in
    if bit =? 1 then new_truth_table splitVarCount
    else const1_table splitVarCount.

(** The pattern map after the rule has been written for the inputs [l]. *)
Definition write_patterns (splitVarCount roundIndex : Z)
    (ps : gmap node dynamic_truth_table) (l : list node)
  : gmap node dynamic_truth_table :=
  foldl (fun ps i => <[i := pattern_rule splitVarCount i roundIndex]> ps) ps l.

(** The value an enumerated input is pinned to: constant one or zero. *)
Definition constant_table (splitVarCount : Z) (b : bool) : dynamic_truth_table :=
  if b then const1_table splitVarCount else new_truth_table splitVarCount.

(** The patterns [get_pattern_] hands to the inputs beyond the split
    variables in one round, in the order of the inputs. *)
Definition enumerated_patterns (split_var N round_number : Z)
  : option (list dynamic_truth_table) :=
  mapM (fun pi_number =>
          get_pattern_ (Build_stats split_var 0) pi_number round_number
            (new_truth_table split_var))
       (seqZ (split_var + 1) (N - split_var)).

(** The round in which an assignment of the enumerated inputs is met:
    input [split_var + 1 + j] holds one when bit [j] of the round is 0. *)
Fixpoint round_of_assignment (bs : list bool) : Z :=
  match bs with
  | [] => 0
  | b :: bs => 2 * round_of_assignment bs + Z.b2z (negb b)
  end.

Section driver_spec.
Context {Ntk : Type} `{!Network Ntk} `{!Collaborators Ntk}.

(** The primary inputs are the nodes [1, ..., num_pis], as in a miter,
    whose inputs are created first: the node of an input is its 1-based
    index. *)
Definition pis_one_based (ntk : Ntk) : Prop :=
  foreach_pi ntk = seqZ 1 (num_pis ntk).

(** The number of calls of the propagation engine in a trace. *)
Definition is_propagation (e : event) : bool :=
  match e with ev_simulate_nodes => true | _ => false end.

Definition propagations (evs : list event) : Z :=
  Z.of_nat (length (List.filter is_propagation evs)).

End driver_spec.

(** The miter of two three-input networks in a large node storage: one
    split variable and four rounds. *)
Definition big_miter : Netlist.netlist :=
  default Netlist.and2
    (Netlist.nl_miter (Netlist.and3_big 8300000) (Netlist.or3_big 8300000)).

(** * Properties *)

(** ** Machine integers *)

Lemma wrap32_small z : 0 <= z < 2 ^ 32 -> wrap32 z = z.
Proof. intros; unfold wrap32; apply Z.mod_small; lia. Qed.

Lemma wrap64_small z : 0 <= z < 2 ^ 64 -> wrap64 z = z.
Proof. intros; unfold wrap64; apply Z.mod_small; lia. Qed.

Lemma wrap8_small z : 0 <= z < 2 ^ 8 -> wrap8 z = z.
Proof. intros; unfold wrap8; apply Z.mod_small; lia. Qed.

(** ** The exact logarithm *)

Lemma Qle_pow2_alt k q m :
  0 <= m -> 0 <= k + m ->
  Qle_pow2 k q = true <-> Zpos (Qden q) * 2 ^ (k + m) <= Qnum q * 2 ^ m.
Proof.
  intros Hm Hkm. unfold Qle_pow2. rewrite Z.leb_le.
  destruct (Z.le_gt_cases 0 k) as [Hk|Hk].
  - rewrite (Z.max_r 0 k), (Z.max_l 0 (- k)) by lia.
    rewrite Z.pow_add_r by lia. rewrite Z.pow_0_r, Z.mul_1_r, Z.mul_assoc.
    apply Z.mul_le_mono_pos_r, Z.pow_pos_nonneg; lia.
  - rewrite (Z.max_l 0 k), (Z.max_r 0 (- k)) by lia.
    replace m with (- k + (k + m)) at 2 by lia.
    rewrite (Z.pow_add_r 2 (- k) (k + m)) by lia.
    rewrite Z.pow_0_r, Z.mul_1_r, Z.mul_assoc.
    apply Z.mul_le_mono_pos_r, Z.pow_pos_nonneg; lia.
Qed.

Lemma Qle_pow2_mono k k' q :
  k' <= k -> Qle_pow2 k q = true -> Qle_pow2 k' q = true.
Proof.
  intros Hk H.
  set (m := Z.abs k + Z.abs k').
  apply (Qle_pow2_alt k q m) in H; [|lia|lia].
  apply (Qle_pow2_alt k' q m); [lia|lia|].
  assert (2 ^ (k' + m) <= 2 ^ (k + m)) by (apply Z.pow_le_mono_r; lia).
  assert (0 < 2 ^ (k' + m)) by (apply Z.pow_pos_nonneg; lia).
  nia.
Qed.

(** [Qlog2_floor q] is the integer [k] with [2^k <= q < 2^(k+1)]. *)
Lemma Qlog2_floor_spec q :
  0 < Qnum q ->
  Qle_pow2 (Qlog2_floor q) q = true /\ Qle_pow2 (Qlog2_floor q + 1) q = false.
Proof.
  intros Ha. unfold Qlog2_floor.
  set (a := Qnum q) in *. set (b := Zpos (Qden q)).
  assert (Hb : 0 < b) by (subst b; lia).
  destruct (Z.log2_spec a Ha) as [Ha1 Ha2].
  destruct (Z.log2_spec b Hb) as [Hb1 Hb2].
  pose proof (Z.log2_nonneg a). pose proof (Z.log2_nonneg b).
  set (la := Z.log2 a) in *. set (lb := Z.log2 b) in *.
  set (m := lb + 2).
  assert (Hp : forall e, 0 <= e -> 0 < 2 ^ e) by (intros; apply Z.pow_pos_nonneg; lia).
  assert (Hup : Qle_pow2 (la - lb + 1) q = false).
  { apply not_true_is_false. intros H1.
    apply (Qle_pow2_alt _ q m) in H1; [|lia|lia]. fold a b in H1.
    replace (la - lb + 1 + m) with ((la + 1) + 2) in H1 by lia.
    replace m with (lb + 2) in H1 by lia.
    rewrite !Z.pow_add_r in H1 by lia.
    rewrite Z.pow_succ_r in Ha2, Hb2 by lia.
    pose proof (Hp la ltac:(lia)). pose proof (Hp lb ltac:(lia)). nia. }
  assert (Hlow : Qle_pow2 (la - lb - 1) q = true).
  { apply (Qle_pow2_alt _ q m); [lia|lia|]. fold a b.
    replace (la - lb - 1 + m) with (la + 1) by lia.
    replace m with (Z.succ lb + 1) by lia.
    rewrite !Z.pow_add_r by lia.
    rewrite Z.pow_succ_r in Ha2, Hb2 |- * by lia.
    pose proof (Hp la ltac:(lia)). pose proof (Hp lb ltac:(lia)). nia. }
  destruct (Qle_pow2 (la - lb) q) eqn:Hd.
  - split; [exact Hd | exact Hup].
  - split; [exact Hlow|]. replace (la - lb - 1 + 1) with (la - lb) by lia. exact Hd.
Qed.

Lemma Qlog2_floor_ge k q :
  0 < Qnum q -> Qle_pow2 k q = true -> k <= Qlog2_floor q.
Proof.
  intros Ha Hk. destruct (Qlog2_floor_spec q Ha) as [_ Hup].
  destruct (Z.le_gt_cases k (Qlog2_floor q)) as [|Hlt]; [done|].
  rewrite (Qle_pow2_mono k (Qlog2_floor q + 1) q) in Hup; [done|lia|done].
Qed.

Lemma Qlog2_floor_lt k q :
  0 < Qnum q -> Qle_pow2 k q = false -> Qlog2_floor q < k.
Proof.
  intros Ha Hk. destruct (Qlog2_floor_spec q Ha) as [Hlow _].
  destruct (Z.le_gt_cases k (Qlog2_floor q)) as [Hle|]; [|done].
  rewrite (Qle_pow2_mono (Qlog2_floor q) k q) in Hk; [done|lia|done].
Qed.

(** [Qle_pow2] decides the order of the rationals against a power of two. *)
Lemma Qle_pow2_Qpower k q :
  Qle_pow2 k q = true <-> (inject_Z 2 ^ k <= q)%Q.
Proof.
  unfold Qle_pow2. rewrite Z.leb_le.
  destruct (Z.le_gt_cases 0 k) as [Hk|Hk].
  - rewrite (Z.max_r 0 k), (Z.max_l 0 (- k)), Z.pow_0_r, Z.mul_1_r by lia.
    rewrite <- Zpower_Qpower by lia.
    unfold Qle; simpl. lia.
  - rewrite (Z.max_l 0 k), (Z.max_r 0 (- k)), Z.pow_0_r, Z.mul_1_r by lia.
    replace k with (- (- k)) at 2 by lia.
    rewrite Qpower_opp, <- Zpower_Qpower by lia.
    assert (Hp : 0 < 2 ^ (- k)) by (apply Z.pow_pos_nonneg; lia).
    destruct (2 ^ (- k)) as [|p|p] eqn:E; try lia.
    unfold Qle, Qinv; simpl. lia.
Qed.

(** [Qlog2_floor q] is the floor of the real logarithm: in the rationals,
    [2 ^ Qlog2_floor q <= q < 2 ^ (Qlog2_floor q + 1)]. *)
Lemma Qlog2_floor_Qpower q :
  (0 < q)%Q ->
  (inject_Z 2 ^ Qlog2_floor q <= q)%Q
  /\ ~ (inject_Z 2 ^ (Qlog2_floor q + 1) <= q)%Q.
Proof.
  intros Hq. assert (Ha : 0 < Qnum q).
  { unfold Qlt in Hq. cbn in Hq. lia. }
  destruct (Qlog2_floor_spec q Ha) as [Hlow Hup]. split.
  - by apply Qle_pow2_Qpower.
  - intros H. apply Qle_pow2_Qpower in H. congruence.
Qed.

(** ** The split planner *)

(** The argument of the planner's logarithm. *)
Local Abbreviation log_arg n := (inject_Z (2 ^ 29) / inject_Z n - inject_Z 32)%Q.

(** Case analysis on the comparisons of the code. *)
Ltac cases_cmp :=
  repeat match goal with
         | |- context [?a <=? ?b] => destruct (Z.leb_spec a b)
         | |- context [?a <? ?b] => destruct (Z.ltb_spec a b)
         | |- context [?a =? ?b] => destruct (Z.eqb_spec a b)
         end.

Lemma planner_arg n :
  0 < n -> Qnum (log_arg n) = 2 ^ 29 - 32 * n /\ Zpos (Qden (log_arg n)) = n.
Proof.
  intros Hn. destruct n as [|p|p]; try lia.
  unfold Qminus, Qdiv, Qplus, Qmult, Qinv, Qopp, inject_Z.
  cbn [Qnum Qden]. split; lia.
Qed.

(** The argument is positive only for a positive size. *)
Lemma planner_arg_pos size : size <> 0 -> 0 < Qnum (log_arg size) -> 0 < size.
Proof.
  intros Hz Hpos. destruct size as [|p|p]; try lia. exfalso. revert Hpos.
  unfold Qminus, Qdiv, Qplus, Qmult, Qinv, Qopp, inject_Z. cbn [Qnum Qden]. lia.
Qed.

(** The argument is at least [2^k] exactly when
    [n * 2^k <= 2^29 - 32 * n], with both sides scaled by [2^m] to keep
    the exponents non-negative. *)
Lemma planner_arg_ge n k m :
  0 < n -> 0 <= m -> 0 <= k + m ->
  Qle_pow2 k (log_arg n) = true
  <-> n * 2 ^ (k + m) <= (2 ^ 29 - 32 * n) * 2 ^ m.
Proof.
  intros Hn Hm Hkm. destruct (planner_arg n Hn) as [Hnum Hden].
  rewrite (Qle_pow2_alt k _ m) by lia.
  rewrite Hnum, Hden. reflexivity.
Qed.

(** The argument is below [2^29]: its logarithm is below 29. *)
Lemma planner_log_lt_29 n : 0 < n -> Qlog2_floor (log_arg n) < 29.
Proof.
  intros Hn. destruct (planner_arg n Hn) as [Hnum Hden].
  destruct (Z.le_gt_cases (Qnum (log_arg n)) 0) as [Hle|Hgt].
  - unfold Qlog2_floor.
    assert (Z.log2 (Qnum (log_arg n)) = 0) as -> by (apply Z.log2_nonpos; lia).
    pose proof (Z.log2_nonneg (Zpos (Qden (log_arg n)))).
    case_match; lia.
  - apply Qlog2_floor_lt; [lia|]. apply not_true_is_false. intros Hle.
    apply (planner_arg_ge n 29 0) in Hle; lia.
Qed.

Lemma max_m_Some size m :
  max_m_ size = Some m -> 0 < size < 2 ^ 24 /\ 0 <= m <= 31.
Proof.
  unfold max_m_. destruct (Z.eqb_spec size 0) as [|Hz]; [done|].
  destruct (Z.leb_spec (Qnum (log_arg size)) 0) as [|Hpos]; [done|].
  pose proof (planner_arg_pos size Hz Hpos) as Hs.
  destruct (planner_arg size Hs) as [Hnum Hden].
  pose proof (planner_log_lt_29 size Hs) as Hfl.
  unfold double_to_uint32. case_match; [|done]. intros [= <-].
  split; [lia|]. unfold trunc_log2_plus in *. case_match; lia.
Qed.

Lemma split_var_Some size N sv :
  split_var_ size N = Some sv ->
  0 <= N -> 0 < size < 2 ^ 24 /\ 0 <= sv <= N /\ sv <= 31.
Proof.
  unfold split_var_. destruct (max_m_ size) as [m|] eqn:Hm; [|done].
  apply max_m_Some in Hm. simpl. intros [= <-] HN. case_match; lia.
Qed.

Lemma rounds_Some N sv R :
  rounds_ N sv = Some R ->
  0 <= sv <= N -> N < 2 ^ 32 ->
  R = 2 ^ (N - sv) /\ N - sv <= 31 /\ 0 < R <= 2 ^ 31.
Proof.
  unfold rounds_, double_to_uint32. intros H HS HN.
  rewrite wrap32_small in H by lia.
  destruct (Z.ltb_spec (N - sv) 32); [|done].
  case_match; [|done]. injection H as <-.
  split; [done|]. split; [lia|]. split.
  - apply Z.pow_pos_nonneg; lia.
  - apply Z.pow_le_mono_r; lia.
Qed.

Lemma plan_Some size N st :
  plan size N = Some st ->
  0 <= N < 2 ^ 32 ->
  split_var_ size N = Some (split_var st)
  /\ rounds_ N (split_var st) = Some (rounds st)
  /\ 0 <= split_var st <= N /\ split_var st <= 31
  /\ N - split_var st <= 31
  /\ rounds st = 2 ^ (N - split_var st) /\ 0 < rounds st <= 2 ^ 31.
Proof.
  unfold plan. intros H HN.
  destruct (split_var_ size N) as [sv|] eqn:HS; [|done]. simpl in H.
  destruct (rounds_ N sv) as [R|] eqn:HR; [|done]. simpl in H.
  injection H as <-. simpl.
  apply split_var_Some in HS as (_ & HS1 & HS2); [|lia].
  pose proof (rounds_Some _ _ _ HR HS1 ltac:(lia)) as (? & ? & ?).
  repeat split; try done; lia.
Qed.

(** Where the argument of the logarithm is at least [1/8] the conversion
    truncates a non-negative number and the code computes the formula. *)
Lemma max_m_formula nodeCount :
  1 <= nodeCount <= 16711935 ->
  max_m_ nodeCount = Some (maxSplit nodeCount) /\ 0 <= maxSplit nodeCount <= 31.
Proof.
  intros Hn. assert (Hs : 0 < nodeCount) by lia.
  destruct (planner_arg nodeCount Hs) as [Hnum Hden].
  pose proof (planner_log_lt_29 nodeCount Hs) as Hlt.
  assert (Hge : -3 <= Qlog2_floor (log_arg nodeCount)).
  { apply Qlog2_floor_ge; [lia|]. apply (planner_arg_ge nodeCount (-3) 3); lia. }
  unfold max_m_, maxSplit, trunc_log2_plus.
  destruct (Z.eqb_spec nodeCount 0); [lia|].
  destruct (Z.leb_spec (Qnum (log_arg nodeCount)) 0); [lia|].
  destruct (Z.leb_spec 0 (Qlog2_floor (log_arg nodeCount) + 3)); [|lia].
  cbn [orb]. unfold double_to_uint32. cases_cmp; try lia.
  cbn [andb]. split; [done|lia].
Qed.

(** C2 (amended): for a node count from 1 to 16711935, where
    2^29/nodeCount - 32 is at least 1/8, and an input count whose
    distance to the split count is at most 31, the plan is
    splitVarCount = min(primaryInputCount, maxSplit) with
    maxSplit = floor(log2(2^29/nodeCount - 32)) + 3 and
    roundCount = 2^(primaryInputCount - splitVarCount); roundCount is 1
    when primaryInputCount <= maxSplit. *)
Theorem split_plan_formula nodeCount primaryInputCount :
  1 <= nodeCount <= 16711935 ->
  1 <= primaryInputCount < 2 ^ 32 ->
  primaryInputCount - splitVarCount nodeCount primaryInputCount <= 31 ->
  plan nodeCount primaryInputCount
  = Some (Build_stats (splitVarCount nodeCount primaryInputCount)
                      (roundCount nodeCount primaryInputCount))
  /\ (primaryInputCount <= maxSplit nodeCount ->
      roundCount nodeCount primaryInputCount = 1).
Proof.
  intros Hn HN Hd. destruct (max_m_formula nodeCount Hn) as [Hm Hb].
  unfold roundCount, splitVarCount in *. split.
  - unfold plan, split_var_. rewrite Hm. simpl.
    replace (if maxSplit nodeCount <? primaryInputCount
             then maxSplit nodeCount else primaryInputCount)
      with (Z.min primaryInputCount (maxSplit nodeCount))
      by (case_match; lia).
    unfold rounds_, double_to_uint32.
    rewrite wrap32_small by lia.
    destruct (Z.ltb_spec (primaryInputCount - Z.min primaryInputCount (maxSplit nodeCount)) 32);
      [|lia].
    assert (0 < 2 ^ (primaryInputCount - Z.min primaryInputCount (maxSplit nodeCount)))
      by (apply Z.pow_pos_nonneg; lia).
    assert (2 ^ (primaryInputCount - Z.min primaryInputCount (maxSplit nodeCount)) <= 2 ^ 31)
      by (apply Z.pow_le_mono_r; lia).
    case_match; [done|lia].
  - intros Hle. rewrite Z.min_l by lia. by rewrite Z.sub_diag.
Qed.

Lemma split_plan_formula_witness :
  plan 5000000 10
  = Some (Build_stats (splitVarCount 5000000 10) (roundCount 5000000 10))
  /\ (10 <= maxSplit 5000000 -> roundCount 5000000 10 = 1).
Proof.
  apply split_plan_formula; [lia | lia | vm_compute; discriminate].
Defined.

(** C2, as stated, fails: with 16720000 nodes the argument of the
    logarithm lies between 1/16 and 1/8, the formula gives
    maxSplit = -1 and so a split count of -1 and 4 rounds for one input,
    where the code truncates to a split count of 0 and runs 2 rounds. *)
Lemma split_plan_formula_counterexample :
  plan 16720000 1 = Some (Build_stats 0 2)
  /\ splitVarCount 16720000 1 = -1
  /\ roundCount 16720000 1 = 4
  /\ plan 16720000 1
     <> Some (Build_stats (splitVarCount 16720000 1) (roundCount 16720000 1)).
Proof. by vm_compute. Qed.

(** C9 (amended): for a node count from 1 to 16647160, where
    2^29/nodeCount - 32 is at least 1/4, and every input count of at
    least 1, the planner returns a split count with
    0 < splitVarCount <= primaryInputCount. *)
Theorem split_var_bounds nodeCount primaryInputCount :
  1 <= nodeCount <= 16647160 ->
  1 <= primaryInputCount ->
  exists sv, split_var_ nodeCount primaryInputCount = Some sv
            /\ 0 < sv <= primaryInputCount.
Proof.
  intros Hn HN. destruct (max_m_formula nodeCount ltac:(lia)) as [Hm Hb].
  assert (1 <= maxSplit nodeCount).
  { unfold maxSplit.
    destruct (planner_arg nodeCount ltac:(lia)) as [Hnum Hden].
    assert (-2 <= Qlog2_floor (log_arg nodeCount)); [|lia].
    apply Qlog2_floor_ge; [lia|]. apply (planner_arg_ge nodeCount (-2) 2); lia. }
  unfold split_var_. rewrite Hm. simpl. eexists; split; [done|]. case_match; lia.
Qed.

Lemma split_var_bounds_witness :
  exists sv, split_var_ 16600000 3 = Some sv /\ 0 < sv <= 3.
Proof. apply split_var_bounds; lia. Defined.

(** C9, as stated, fails: with 16700000 nodes and one input the split
    count is 0. *)
Lemma split_var_bounds_counterexample :
  split_var_ 16700000 1 = Some 0
  /\ ~ (exists sv, split_var_ 16700000 1 = Some sv /\ 0 < sv <= 1).
Proof.
  split; [by vm_compute|].
  intros (sv & HS & Hpos & _). vm_compute in HS. injection HS as <-. lia.
Qed.

(** ** Truth tables *)

Lemma testbit_bits_of_fun f len j :
  0 <= j ->
  Z.testbit (bits_of_fun f len) j = (j <? Z.of_nat len) && f j.
Proof.
  intros Hj. induction len as [|l IH].
  - cbn [bits_of_fun]. rewrite Z.bits_0. change (Z.of_nat 0) with 0.
    by destruct (Z.ltb_spec j 0); [lia|].
  - cbn [bits_of_fun]. rewrite Z.lor_spec, IH.
    destruct (Z.eq_dec j (Z.of_nat l)) as [->|Hne].
    + rewrite Z.ltb_irrefl. cbn [andb orb].
      destruct (Z.ltb_spec (Z.of_nat l) (Z.of_nat (S l))); [|lia].
      destruct (f (Z.of_nat l)); [|by rewrite Z.bits_0].
      by rewrite Z.pow2_bits_true by lia.
    + assert (Z.testbit (if f (Z.of_nat l) then 2 ^ Z.of_nat l else 0) j = false) as ->.
      { destruct (f (Z.of_nat l)); [|by rewrite Z.bits_0].
        apply Z.pow2_bits_false; lia. }
      rewrite orb_false_r.
      destruct (Z.ltb_spec j (Z.of_nat l)), (Z.ltb_spec j (Z.of_nat (S l))); try lia; done.
Qed.

(** Bit [j] of the canonical pattern of variable [v] is the value of the
    variable in assignment [j]: it alternates in blocks of [2^v]. *)
Lemma nth_var_testbit n v j :
  0 <= n -> 0 <= j < 2 ^ n ->
  Z.testbit (bits (nth_var n v)) j = Z.testbit j v.
Proof.
  intros Hn Hj. unfold nth_var. cbn [bits].
  rewrite testbit_bits_of_fun by lia. rewrite Z2Nat.id by lia.
  by destruct (Z.ltb_spec j (2 ^ n)); [|lia].
Qed.

Lemma unary_not_new n : unary_not (new_truth_table n) = const1_table n.
Proof.
  unfold unary_not, new_truth_table, const1_table. cbn [bits num_vars num_bits].
  f_equal. change (Z.lnot 0) with (-1). apply Z.land_m1_l.
Qed.

Lemma const1_table_testbit n j :
  0 <= n -> 0 <= j < 2 ^ n -> Z.testbit (bits (const1_table n)) j = true.
Proof. intros Hn Hj. cbn [const1_table bits]. apply Z.ones_spec_low; lia. Qed.

Lemma is_const0_new n : is_const0 (new_truth_table n) = true.
Proof. done. Qed.

Lemma const1_not_const0 n : 0 <= n -> is_const0 (const1_table n) = false.
Proof.
  intros Hn. unfold is_const0, const1_table. cbn [bits].
  rewrite Z.ones_equiv.
  assert (0 < 2 ^ n) by (apply Z.pow_pos_nonneg; lia).
  assert (2 ^ 1 <= 2 ^ 2 ^ n) by (apply Z.pow_le_mono_r; lia).
  apply Z.eqb_neq. lia.
Qed.

Lemma constant_table_inj n b b' :
  0 <= n -> constant_table n b = constant_table n b' -> b = b'.
Proof.
  intros Hn Heq. apply (f_equal is_const0) in Heq.
  destruct b, b'; cbn [constant_table] in Heq; try done;
    rewrite const1_not_const0, is_const0_new in Heq by done; done.
Qed.

(** ** The pattern generator *)

(** The condition [(round_number >> k) % 2] reads bit [k] of the round. *)
Lemma rem2_testbit r k :
  0 <= r -> 0 <= k -> negb (Z.rem (Z.shiftr r k) 2 =? 0) = Z.testbit r k.
Proof.
  intros Hr Hk. rewrite Z.testbit_odd.
  assert (0 <= Z.shiftr r k) by (apply Z.shiftr_nonneg; lia).
  rewrite Z.rem_mod_nonneg by lia.
  rewrite <- Z.bit0_mod, Z.bit0_odd.
  by destruct (Z.odd (Z.shiftr r k)).
Qed.

Lemma land1_testbit r k :
  0 <= k -> (Z.land (Z.shiftr r k) 1 =? 1) = Z.testbit r k.
Proof.
  intros Hk. rewrite Z.testbit_odd.
  change 1 with (Z.ones 1) at 1. rewrite Z.land_ones by lia.
  change (2 ^ 1) with 2. rewrite <- Z.bit0_mod, Z.bit0_odd.
  by destruct (Z.odd (Z.shiftr r k)).
Qed.

Lemma get_pattern_enumerated sv i r :
  sv < i -> i - sv - 1 < 32 -> 0 <= r ->
  get_pattern_ (Build_stats sv 0) i r (new_truth_table sv)
  = Some (constant_table sv (negb (Z.testbit r (i - sv - 1)))).
Proof.
  intros Hi Hk Hr. unfold get_pattern_. cbn [split_var].
  destruct (Z.leb_spec i sv); [lia|].
  rewrite wrap64_small by lia. unfold shr_int.
  destruct (Z.leb_spec 32 (i - sv - 1)); [lia|]. cbn [mbind option_bind].
  rewrite rem2_testbit by lia.
  destruct (Z.testbit r (i - sv - 1)); cbn [negb constant_table]; [done|].
  by rewrite unary_not_new.
Qed.

Lemma mapM_Some_fmap {A B} (f : A -> option B) (g : A -> B) (l : list A) :
  Forall (fun x => f x = Some (g x)) l -> mapM f l = Some (g <$> l).
Proof.
  induction 1 as [|x l Hx _ IH]; [done|].
  cbn. rewrite Hx. cbn. rewrite IH. done.
Qed.

Lemma enumerated_patterns_eq sv N r :
  0 <= sv -> N - sv <= 32 -> 0 <= r ->
  enumerated_patterns sv N r
  = Some ((fun i => constant_table sv (negb (Z.testbit r (i - sv - 1))))
            <$> seqZ (sv + 1) (N - sv)).
Proof.
  intros HS HN Hr. unfold enumerated_patterns.
  apply mapM_Some_fmap, Forall_seqZ. intros i Hi.
  apply get_pattern_enumerated; lia.
Qed.

Lemma fmap_seqZ_eq {B} (g : Z -> B) (h : bool -> B) m n (bs : list bool) :
  Z.of_nat (length bs) = n ->
  g <$> seqZ m n = h <$> bs
  <-> forall j b, bs !! j = Some b -> g (m + Z.of_nat j) = h b.
Proof.
  intros Hlen. split.
  - intros Heq j b Hb.
    apply (f_equal (fun l => l !! j)) in Heq.
    rewrite !list_lookup_fmap, Hb in Heq.
    apply lookup_lt_Some in Hb.
    rewrite lookup_seqZ_lt in Heq by lia. by injection Heq.
  - intros H. apply list_eq. intros j. rewrite !list_lookup_fmap.
    destruct (bs !! j) as [b|] eqn:Hb.
    + pose proof (lookup_lt_Some _ _ _ Hb).
      rewrite lookup_seqZ_lt by lia. cbn. f_equal. by apply H.
    + apply lookup_ge_None in Hb. by rewrite lookup_seqZ_ge by lia.
Qed.

Lemma round_of_assignment_range bs :
  0 <= round_of_assignment bs < 2 ^ Z.of_nat (length bs).
Proof.
  induction bs as [|b bs IH]; [done|].
  cbn [round_of_assignment length]. rewrite Nat2Z.inj_succ, Z.pow_succ_r by lia.
  destruct b; cbn; lia.
Qed.

Lemma round_of_assignment_bits bs j b :
  bs !! j = Some b ->
  Z.testbit (round_of_assignment bs) (Z.of_nat j) = negb b.
Proof.
  revert j. induction bs as [|b0 bs IH]; intros j Hj; [done|].
  cbn [round_of_assignment]. destruct j as [|j].
  - injection Hj as ->. apply Z.testbit_0_r.
  - rewrite Nat2Z.inj_succ, Z.testbit_succ_r by lia. by apply IH.
Qed.

(** C3 (amended): for 0 <= splitVarCount < primaryInputCount with
    primaryInputCount - splitVarCount <= 31, every round index in
    [0, 2^(primaryInputCount - splitVarCount)) pins the inputs beyond the
    split variables to constants, and every assignment of constants to
    those inputs is produced in exactly one round. *)
Theorem round_coverage sv N :
  0 <= sv < N -> N - sv <= 31 ->
  (forall r, 0 <= r < 2 ^ (N - sv) ->
     exists bs, Z.of_nat (length bs) = N - sv
                /\ enumerated_patterns sv N r = Some (constant_table sv <$> bs))
  /\ (forall bs : list bool, Z.of_nat (length bs) = N - sv ->
        exists r, 0 <= r < 2 ^ (N - sv)
          /\ enumerated_patterns sv N r = Some (constant_table sv <$> bs)
          /\ forall r', 0 <= r' < 2 ^ (N - sv) ->
               enumerated_patterns sv N r' = Some (constant_table sv <$> bs) ->
               r' = r).
Proof.
  intros HS HN. split.
  - intros r Hr.
    exists ((fun i => negb (Z.testbit r (i - sv - 1))) <$> seqZ (sv + 1) (N - sv)).
    split.
    + rewrite length_fmap, length_seqZ. lia.
    + rewrite enumerated_patterns_eq by lia. by rewrite <- list_fmap_compose.
  - intros bs Hlen.
    assert (Hbits : forall r, 0 <= r ->
      enumerated_patterns sv N r = Some (constant_table sv <$> bs)
      <-> forall j b, bs !! j = Some b -> Z.testbit r (Z.of_nat j) = negb b).
    { intros r Hr. rewrite enumerated_patterns_eq by lia.
      split.
      - intros [= Heq] j b Hb.
        eapply fmap_seqZ_eq in Heq; [|done|exact Hb].
        apply constant_table_inj in Heq; [|lia].
        replace (sv + 1 + Z.of_nat j - sv - 1) with (Z.of_nat j) in Heq by lia.
        rewrite <- Heq. by rewrite negb_involutive.
      - intros H. f_equal. apply fmap_seqZ_eq; [done|]. intros j b Hb.
        replace (sv + 1 + Z.of_nat j - sv - 1) with (Z.of_nat j) by lia.
        rewrite (H j b Hb). by rewrite negb_involutive. }
    pose proof (round_of_assignment_range bs) as Hrange. rewrite Hlen in Hrange.
    exists (round_of_assignment bs). split; [done|]. split.
    + apply Hbits; [lia|]. intros j b. apply round_of_assignment_bits.
    + intros r' Hr' Heq.
      pose proof (proj1 (Hbits r' ltac:(lia)) Heq) as Heq'. clear Heq.
      rename Heq' into Heq.
      apply Z.bits_inj'. intros k Hk.
      destruct (Z.lt_ge_cases k (N - sv)) as [Hlt|Hge].
      * destruct (bs !! Z.to_nat k) as [b|] eqn:Hb.
        -- pose proof (Heq _ _ Hb) as H1.
           pose proof (round_of_assignment_bits _ _ _ Hb) as H2.
           rewrite Z2Nat.id in H1, H2 by lia. congruence.
        -- apply lookup_ge_None in Hb. lia.
      * rewrite <- (Z.mod_small r' (2 ^ (N - sv))) by lia.
        rewrite <- (Z.mod_small (round_of_assignment bs) (2 ^ (N - sv))) by lia.
        rewrite !Z.mod_pow2_bits_high by lia. done.
Qed.

Lemma round_coverage_witness :
  (forall r, 0 <= r < 2 ^ (3 - 1) ->
     exists bs, Z.of_nat (length bs) = 3 - 1
                /\ enumerated_patterns 1 3 r = Some (constant_table 1 <$> bs))
  /\ (forall bs : list bool, Z.of_nat (length bs) = 3 - 1 ->
        exists r, 0 <= r < 2 ^ (3 - 1)
          /\ enumerated_patterns 1 3 r = Some (constant_table 1 <$> bs)
          /\ forall r', 0 <= r' < 2 ^ (3 - 1) ->
               enumerated_patterns 1 3 r' = Some (constant_table 1 <$> bs) ->
               r' = r).
Proof. apply (round_coverage 1 3); lia. Defined.

(** C3, as stated, fails beyond 32 enumerated inputs: with one split
    variable and 34 inputs, input 34 asks for a shift of the [int] round
    counter by 32 bits, which is undefined, so no round produces an
    assignment of the enumerated inputs. *)
Lemma round_coverage_counterexample :
  get_pattern_ (Build_stats 1 0) 34 0 (new_truth_table 1) = None
  /\ rounds_ 34 1 = None
  /\ ~ (exists bs, Z.of_nat (length bs) = 34 - 1
                   /\ enumerated_patterns 1 34 0 = Some (constant_table 1 <$> bs)).
Proof.
  split; [by vm_compute|]. split; [by vm_compute|].
  intros (bs & _ & H). by vm_compute in H.
Qed.

Lemma update_pi_rule st r ps i :
  1 <= i -> 0 <= split_var st <= 31 -> i - split_var st - 1 < 32 -> 0 <= r ->
  update_pi st r ps i
  = Some (<[i := pattern_rule (split_var st) i r]> ps).
Proof.
  intros Hi HS Hk Hr. unfold update_pi, pattern_rule, get_pattern_.
  destruct (Z.leb_spec i (split_var st)) as [Hle|Hgt].
  - unfold create_nth_var. cbn [new_truth_table num_vars].
    rewrite wrap64_small, wrap8_small by lia.
    destruct (Z.leb_spec 0 (i - 1)); [|lia].
    destruct (Z.ltb_spec (i - 1) (split_var st)); [|lia]. done.
  - cbn [mbind option_bind]. rewrite wrap64_small by lia. unfold shr_int.
    destruct (Z.leb_spec 32 (i - split_var st - 1)); [lia|].
    cbn [mbind option_bind].
    rewrite rem2_testbit, land1_testbit by lia.
    destruct (Z.testbit r (i - split_var st - 1)); cbn [negb mbind option_bind];
      [done|]. by rewrite unary_not_new.
Qed.

Lemma foldl_opt_update_pi st r l : forall ps,
  Forall (fun i => 1 <= i /\ i - split_var st - 1 < 32) l ->
  0 <= split_var st <= 31 -> 0 <= r ->
  foldl_opt (update_pi st r) ps l = Some (write_patterns (split_var st) r ps l).
Proof.
  induction l as [|i l IH]; intros ps Hl HS Hr; [done|].
  apply Forall_cons in Hl as [[Hi Hk] Hl].
  cbn [foldl_opt]. rewrite update_pi_rule by done. cbn [mbind option_bind].
  by rewrite IH.
Qed.

Lemma write_patterns_lookup sv r l i : forall ps,
  i ∈ l -> write_patterns sv r ps l !! i = Some (pattern_rule sv i r).
Proof.
  assert (Hnot : forall l ps, i ∉ l -> write_patterns sv r ps l !! i = ps !! i).
  { clear l. induction l as [|a l IH]; intros ps Hi; [done|].
    apply not_elem_of_cons in Hi as [Hne Hi].
    unfold write_patterns in *. cbn [foldl]. rewrite IH by done.
    by rewrite lookup_insert_ne. }
  induction l as [|a l IH]; intros ps Hi; [by apply elem_of_nil in Hi|].
  unfold write_patterns in *. cbn [foldl].
  destruct (decide (i ∈ l)) as [Hin|Hnin]; [by apply IH|].
  apply elem_of_cons in Hi as [->|Hi]; [|done].
  fold (write_patterns sv r (<[a:=pattern_rule sv a r]> ps) l).
  rewrite Hnot by done. apply lookup_insert_eq.
Qed.

Section driver_properties.
Context {Ntk : Type} `{!Network Ntk} `{!Collaborators Ntk}.

(** The callback is defined on every input of a planned network. *)
Lemma planned_inputs (ntk : Ntk) st :
  plan (nodes_size ntk) (num_pis ntk) = Some st ->
  0 <= num_pis ntk < 2 ^ 32 ->
  pis_one_based ntk ->
  Forall (fun i => 1 <= i /\ i - split_var st - 1 < 32) (foreach_pi ntk)
  /\ 0 <= split_var st <= 31.
Proof.
  intros Hplan HN Hpis. apply plan_Some in Hplan as (_ & _ & ? & ? & ? & _); [|done].
  split; [|lia]. rewrite Hpis. apply Forall_seqZ. lia.
Qed.

(** C1 (amended): for a network whose plan is defined and whose primary
    inputs are the nodes 1, ..., primaryInputCount, in every round [r] in
    [0, roundCount) the pattern written into the pattern
    map for input [i] is the canonical pattern of variable [i - 1] over
    splitVarCount variables when [i <= splitVarCount], the same in every
    round, and otherwise the all-zero table when bit
    [i - splitVarCount - 1] of [r] is 1 and the all-one table when it is
    0. *)
Theorem pattern_generator_rule (ntk : Ntk) st r i ps :
  plan (nodes_size ntk) (num_pis ntk) = Some st ->
  0 <= num_pis ntk < 2 ^ 32 ->
  pis_one_based ntk ->
  0 <= r < rounds st ->
  1 <= i <= num_pis ntk ->
  exists ps',
    foldl_opt (update_pi st r) ps (foreach_pi ntk) = Some ps'
    /\ ps' !! i = Some (pattern_rule (split_var st) i r)
    /\ (i <= split_var st ->
        pattern_rule (split_var st) i r = nth_var (split_var st) (i - 1))
    /\ (split_var st < i ->
        pattern_rule (split_var st) i r
        = if Z.land (Z.shiftr r (i - split_var st - 1)) 1 =? 1
          then new_truth_table (split_var st)
          else const1_table (split_var st)).
Proof.
  intros Hplan HN Hpis Hr Hi.
  destruct (planned_inputs ntk st Hplan HN Hpis) as [Hall HS].
  eexists. split; [apply foldl_opt_update_pi; [done|done|lia]|].
  split; [|split].
  - apply write_patterns_lookup. rewrite Hpis. apply elem_of_seqZ. lia.
  - intros Hle. unfold pattern_rule. by destruct (Z.leb_spec i (split_var st)); [|lia].
  - intros Hgt. unfold pattern_rule. by destruct (Z.leb_spec i (split_var st)); [lia|].
Qed.

(** ** The equivalence aggregator *)

(** The table the aggregator reads for a node: the entry of the map, or
    the empty table for a node without an entry. *)
Lemma pattern_at_lookup ps n :
  (pattern_at ps n).1 = default empty_truth_table (ps !! n)
  /\ forall n', default empty_truth_table ((pattern_at ps n).2 !! n')
                = default empty_truth_table (ps !! n').
Proof.
  unfold pattern_at. destruct (ps !! n) as [t|] eqn:Hn; cbn; [done|].
  split; [done|]. intros n'. destruct (decide (n = n')) as [<-|Hne].
  - by rewrite lookup_insert_eq, Hn.
  - by rewrite lookup_insert_ne.
Qed.

(** The loop of the aggregator folds the tests of the outputs into the
    verdict; the entries it inserts for missing nodes are empty tables
    and do not change what later outputs read. *)
Lemma is_equivalent_body_fold (ntk : Ntk) l : forall v ps,
  (foldl (fun '(is_equivalent, patterns) f =>
            let '(t, patterns) := pattern_at patterns (get_node ntk f) in
            if is_complemented ntk f
            then (is_equivalent && is_const0 (unary_not t), patterns)
            else (is_equivalent && is_const0 t, patterns))
         (v, ps) l).1
  = v && forallb (fun f =>
                    is_const0
                      (if is_complemented ntk f
                       then unary_not (default empty_truth_table (ps !! get_node ntk f))
                       else default empty_truth_table (ps !! get_node ntk f)))
                 l.
Proof.
  induction l as [|f l IH]; intros v ps.
  - cbn. by rewrite andb_true_r.
  - cbn [foldl forallb].
    destruct (pattern_at_lookup ps (get_node ntk f)) as [Ht Hps].
    destruct (pattern_at ps (get_node ntk f)) as [t ps1]. cbn [fst snd] in Ht, Hps.
    subst t.
    assert (Hl : forallb (fun f0 =>
                   is_const0
                     (if is_complemented ntk f0
                      then unary_not (default empty_truth_table (ps1 !! get_node ntk f0))
                      else default empty_truth_table (ps1 !! get_node ntk f0))) l
                 = forallb (fun f0 =>
                   is_const0
                     (if is_complemented ntk f0
                      then unary_not (default empty_truth_table (ps !! get_node ntk f0))
                      else default empty_truth_table (ps !! get_node ntk f0))) l).
    { clear IH. induction l as [|f0 l IHl]; [done|].
      cbn [forallb]. by rewrite Hps, IHl. }
    destruct (is_complemented ntk f); rewrite IH, Hl; by rewrite andb_assoc.
Qed.

(** C4: the loop of the aggregator does what the claim says: it ANDs
    into the verdict the conjunction, over the primary outputs, of the
    test that the output's pattern, complemented first exactly when the
    output is complemented, is constant zero, so that a false verdict
    stays false.  But [is_equivalent_] is declared [bool] and returns
    nothing: after the loop control flows off the end of the function, so
    that the call is undefined, for every verdict, network and pattern
    map, and no verdict is handed back to the round loop. *)
Theorem aggregator_flows_off_end (ntk : Ntk) v ps :
  (is_equivalent_body v ntk ps).1
  = v && forallb (fun f =>
                    is_const0
                      (if is_complemented ntk f
                       then unary_not (default empty_truth_table (ps !! get_node ntk f))
                       else default empty_truth_table (ps !! get_node ntk f)))
                 (foreach_po ntk)
  /\ (is_equivalent_body false ntk ps).1 = false
  /\ is_equivalent_ v ntk ps = None.
Proof.
  split; [apply is_equivalent_body_fold|]. split.
  - unfold is_equivalent_body. by rewrite is_equivalent_body_fold.
  - unfold is_equivalent_. by destruct (is_equivalent_body v ntk ps).
Qed.

(** ** The simulation driver *)

(** A round does not come back from the aggregator. *)
Lemma round_body_undefined (ntk : Ntk) st r s : round_body ntk st r s = None.
Proof.
  unfold round_body.
  destruct (foldl_opt (update_pi st r) (rs_patterns s) (foreach_pi ntk)) as [ps|];
    [|done].
  cbn [mbind option_bind]. unfold is_equivalent_.
  by destruct (is_equivalent_body _ _ _).
Qed.

(** The planner never asks for zero rounds. *)
Lemma rounds_positive N sv R : rounds_ N sv = Some R -> 1 <= R.
Proof.
  unfold rounds_, double_to_uint32.
  pose proof (Z.mod_pos_bound (N - sv) (2 ^ 32) ltac:(lia)) as Hw.
  fold (wrap32 (N - sv)) in Hw.
  destruct (Z.ltb_spec (wrap32 (N - sv)) 32); [|done].
  case_match; [|done]. intros [= <-].
  assert (0 < 2 ^ wrap32 (N - sv)) by (apply Z.pow_pos_nonneg; lia). lia.
Qed.

(** C5: the round loop of [run] has no early exit, but it does not
    execute roundCount rounds and return their conjunction either: the
    planner always asks for at least one round, the first round calls the
    aggregator, and the aggregator flows off its end.  [run] is undefined
    on every network, and so is [simulation_cec] whenever the ceiling is
    respected and the miter exists. *)
Theorem run_never_returns (ntk : Ntk) st0 evs :
  run ntk st0 evs = None
  /\ forall ntk1 ntk2 pst,
       simulation_cec ntk1 ntk2 pst
       = if 40 <? num_pis ntk1 then Some (Build_outcome None pst [])
         else match miter ntk1 ntk2 with
              | Some _ => None
              | None =>
                  Some (Build_outcome (Some false)
                          (match pst with
                           | Some _ => Some (Build_stats 0 0)
                           | None => None
                           end) [ev_miter])
              end.
Proof.
  assert (Hrun : forall (ntk : Ntk) st0 evs, run ntk st0 evs = None).
  { clear. intros ntk st0 evs. unfold run.
    destruct (split_var_ (nodes_size ntk) (num_pis ntk)) as [sv|]; [|done].
    cbn [mbind option_bind split_var].
    destruct (rounds_ (num_pis ntk) sv) as [R|] eqn:HR; [|done].
    cbn [mbind option_bind split_var rounds].
    apply rounds_positive in HR.
    destruct (Z.to_nat R) as [|fuel] eqn:Hfuel; [lia|].
    cbn [for_rounds rounds]. change (wrap32 0) with 0.
    destruct (Z.ltb_spec 0 R); [|lia].
    by rewrite round_body_undefined. }
  split; [apply Hrun|].
  intros ntk1 ntk2 pst. unfold simulation_cec.
  destruct (40 <? num_pis ntk1); [done|].
  destruct (miter ntk1 ntk2) as [m|]; [|done]. by rewrite Hrun.
Qed.

(** ** The entry point *)

Lemma simulation_cec_ceiling (ntk1 ntk2 : Ntk) pst :
  40 < num_pis ntk1 ->
  simulation_cec ntk1 ntk2 pst = Some (Build_outcome None pst []).
Proof.
  intros H. unfold simulation_cec. by destruct (Z.ltb_spec 40 (num_pis ntk1)); [|lia].
Qed.

Lemma simulation_cec_no_miter (ntk1 ntk2 : Ntk) pst :
  num_pis ntk1 <= 40 ->
  miter ntk1 ntk2 = None ->
  simulation_cec ntk1 ntk2 pst
  = Some (Build_outcome (Some false)
            (match pst with Some _ => Some (Build_stats 0 0) | None => None end)
            [ev_miter]).
Proof.
  intros H Hm. unfold simulation_cec.
  destruct (Z.ltb_spec 40 (num_pis ntk1)); [lia|]. by rewrite Hm.
Qed.

(** C6: when the first network has more than 40 primary inputs,
    [simulation_cec] returns the absent optional, whatever the second
    network is; the miter is not built, no round is simulated and the
    stats out-parameter is left as it was. *)
Theorem primary_input_ceiling (ntk1 ntk2 : Ntk) pst :
  40 < num_pis ntk1 ->
  simulation_cec ntk1 ntk2 pst = Some (Build_outcome None pst []).
Proof. apply simulation_cec_ceiling. Qed.

(** C7: when the first network has at most 40 primary inputs and the
    miter builder returns no network, [simulation_cec] returns false, not
    the absent optional, and the trace holds the call of the miter
    builder alone: no round is run. *)
Theorem miter_failure_verdict (ntk1 ntk2 : Ntk) pst :
  num_pis ntk1 <= 40 ->
  miter ntk1 ntk2 = None ->
  exists o,
    simulation_cec ntk1 ntk2 pst = Some o
    /\ result o = Some false
    /\ trace o = [ev_miter]
    /\ propagations (trace o) = 0.
Proof.
  intros H Hm. eexists. split; [by apply simulation_cec_no_miter|]. done.
Qed.

(** C8 (amended): for an invocation with a stats out-parameter that does
    not reach the driver, the out-parameter holds after the call: what
    the caller left in it, next to the absent result, when the first
    network has more than 40 primary inputs; split_var = 0 and rounds = 0
    when the first network has at most 40 primary inputs and miter
    construction fails. *)
Theorem stats_publication (ntk1 ntk2 : Ntk) s :
  40 < num_pis ntk1 \/ miter ntk1 ntk2 = None ->
  exists o,
    simulation_cec ntk1 ntk2 (Some s) = Some o
    /\ if 40 <? num_pis ntk1
       then result o = None /\ pst_after o = Some s
       else result o = Some false /\ pst_after o = Some (Build_stats 0 0).
Proof.
  intros H. destruct (Z.ltb_spec 40 (num_pis ntk1)) as [Hgt|Hle].
  - eexists. split; [by apply simulation_cec_ceiling|]. done.
  - destruct H as [|Hm]; [lia|].
    eexists. split; [by apply simulation_cec_no_miter|]. done.
Qed.

(** C10: when the first network has at most 40 primary inputs, the miter
    builder fails and a stats out-parameter is supplied, [simulation_cec]
    writes split_var = 0 and rounds = 0 into it, next to the verdict
    false; the planner and the driver did not run, and the split count
    the caller reads is not positive. *)
Theorem miter_failure_stats (ntk1 ntk2 : Ntk) s :
  num_pis ntk1 <= 40 ->
  miter ntk1 ntk2 = None ->
  exists o,
    simulation_cec ntk1 ntk2 (Some s) = Some o
    /\ pst_after o = Some (Build_stats 0 0)
    /\ result o = Some false
    /\ trace o = [ev_miter]
    /\ forall st, pst_after o = Some st -> ~ 0 < split_var st.
Proof.
  intros H Hm. eexists. split; [by apply simulation_cec_no_miter|].
  cbn. repeat split. intros st [= <-]. cbn. lia.
Qed.

End driver_properties.

(** ** The theorems at concrete networks *)

Import Netlist TwoConstants.

Lemma pattern_generator_rule_witness :
  exists ps',
    foldl_opt (update_pi (Build_stats 1 4) 2) ∅ (foreach_pi big_miter) = Some ps'
    /\ ps' !! 3 = Some (pattern_rule (split_var (Build_stats 1 4)) 3 2)
    /\ (3 <= split_var (Build_stats 1 4) ->
        pattern_rule (split_var (Build_stats 1 4)) 3 2
        = nth_var (split_var (Build_stats 1 4)) (3 - 1))
    /\ (split_var (Build_stats 1 4) < 3 ->
        pattern_rule (split_var (Build_stats 1 4)) 3 2
        = if Z.land (Z.shiftr 2 (3 - split_var (Build_stats 1 4) - 1)) 1 =? 1
          then new_truth_table (split_var (Build_stats 1 4))
          else const1_table (split_var (Build_stats 1 4))).
Proof.
  apply (pattern_generator_rule big_miter (Build_stats 1 4) 2 3 ∅); by vm_compute.
Defined.

(** C1, as stated, fails in two ways.  The callback takes the node of
    an input for its 1-based index: in a network with two constant nodes
    the inputs are the nodes 2 and 3, and with two split variables the
    first input receives the pattern of variable 1 and the second the
    all-one constant, where the rule gives the patterns of the variables
    0 and 1.  And with 10000000 nodes and 40 inputs there are 7 split
    variables: input 40 asks for a shift of the [int] round counter by 32
    bits, so that the callback is undefined, and the round count 2^33 has
    no [uint32_t] value. *)
Lemma pattern_generator_rule_counterexample :
  (plan (nodes_size two_inputs) (num_pis two_inputs)
   = Some (Build_stats 2 1)
   /\ foreach_pi two_inputs = [2; 3]
   /\ exists ps',
        foldl_opt (update_pi (Build_stats 2 1) 0) ∅
          (foreach_pi two_inputs) = Some ps'
        /\ ps' !! 2 = Some (nth_var 2 1)
        /\ pattern_rule 2 1 0 = nth_var 2 0
        /\ nth_var 2 1 <> nth_var 2 0
        /\ ps' !! 3 = Some (const1_table 2)
        /\ pattern_rule 2 2 0 = nth_var 2 1
        /\ const1_table 2 <> nth_var 2 1)
  /\ (split_var_ 10000000 40 = Some 7
      /\ rounds_ 40 7 = None
      /\ forall ps, update_pi (Build_stats 7 0) 0 ps 40 = None).
Proof.
  split.
  - split; [by vm_compute|]. split; [by vm_compute|].
    eexists. split; [by vm_compute|]. repeat split; by vm_compute.
  - split; [by vm_compute|]. split; [by vm_compute|]. intros ps. by vm_compute.
Qed.

Lemma primary_input_ceiling_witness :
  simulation_cec wide41 and2 (Some (Build_stats 7 7))
  = Some (Build_outcome None (Some (Build_stats 7 7)) []).
Proof. apply primary_input_ceiling. by vm_compute. Defined.

Lemma miter_failure_verdict_witness :
  exists o,
    simulation_cec and2 two_outputs None = Some o
    /\ result o = Some false
    /\ trace o = [ev_miter]
    /\ propagations (trace o) = 0.
Proof. apply miter_failure_verdict; by vm_compute. Defined.

Lemma stats_publication_witness :
  exists o,
    simulation_cec and2 two_outputs (Some (Build_stats 7 7)) = Some o
    /\ if 40 <? num_pis and2
       then result o = None /\ pst_after o = Some (Build_stats 7 7)
       else result o = Some false /\ pst_after o = Some (Build_stats 0 0).
Proof. apply stats_publication. right. by vm_compute. Defined.

(** C8, as stated, fails: beyond the ceiling nothing is published; what
    the caller reads after the call is what the structure held before. *)
Lemma stats_publication_counterexample :
  simulation_cec wide41 and2 (Some (Build_stats 7 7))
  = Some (Build_outcome None (Some (Build_stats 7 7)) [])
  /\ simulation_cec wide41 and2 (Some (Build_stats 8 8))
     = Some (Build_outcome None (Some (Build_stats 8 8)) [])
  /\ ~ (exists st, forall s o,
          simulation_cec wide41 and2 (Some s) = Some o -> pst_after o = Some st).
Proof.
  split; [by vm_compute|]. split; [by vm_compute|].
  intros [st H].
  pose proof (H (Build_stats 7 7) _ eq_refl) as H7.
  pose proof (H (Build_stats 8 8) _ eq_refl) as H8.
  vm_compute in H7, H8. congruence.
Qed.

Lemma miter_failure_stats_witness :
  exists o,
    simulation_cec and2 two_outputs (Some (Build_stats 7 7)) = Some o
    /\ pst_after o = Some (Build_stats 0 0)
    /\ result o = Some false
    /\ trace o = [ev_miter]
    /\ forall st, pst_after o = Some st -> ~ 0 < split_var st.
Proof. apply miter_failure_stats; by vm_compute. Defined.

(** ** Checks on small networks *)

Example nth_var_2_0 : nth_var 2 0 = Build_tt 2 4 10.
Proof. reflexivity. Qed.

Example nth_var_2_1 : nth_var 2 1 = Build_tt 2 4 12.
Proof. reflexivity. Qed.

Example unary_not_zero_2 : unary_not (new_truth_table 2) = Build_tt 2 4 15.
Proof. reflexivity. Qed.

(** A missing entry reads as the empty table, which is constant zero, and
    so is its complement. *)
Example empty_table_tests :
  is_const0 empty_truth_table = true
  /\ is_const0 (unary_not empty_truth_table) = true.
Proof. by vm_compute. Qed.

Example max_m_examples :
  max_m_ 1 = Some 31 /\ max_m_ 8388608 = Some 8 /\ max_m_ 16647160 = Some 1
  /\ max_m_ 16647161 = Some 0 /\ max_m_ 16744511 = Some 0
  /\ max_m_ 16744512 = None /\ max_m_ 16777216 = None.
Proof. by vm_compute. Qed.

(** The largest plan under the ceiling has 2^31 rounds; one node more and
    the round count has no [uint32_t] value. *)
Example plan_at_the_edge :
  plan 5592405 40 = Some (Build_stats 9 (2 ^ 31))
  /\ plan 5592406 40 = None.
Proof. by vm_compute. Qed.

(** [a AND b] against [a OR b], and a network against itself: the miter
    exists and the first round does not come back from the aggregator. *)
Example and2_or2 : simulation_cec and2 or2 (Some (Build_stats 7 7)) = None.
Proof. by vm_compute. Qed.

Example and2_and2 : simulation_cec and2 and2 None = None.
Proof. by vm_compute. Qed.

(** What the loop of the aggregator computes on the miter of [a AND b]
    and [a OR b] once the inputs and the gates hold their patterns. *)
Example and2_or2_body :
  let m := default and2 (nl_miter and2 or2) in
  let ps := nl_simulate m
              (write_patterns 2 0 ∅ (foreach_pi m)) 2 in
  (is_equivalent_body true m ps).1 = false.
Proof. by vm_compute. Qed.

(** The ceiling looks at the first network only. *)
Example and2_wide41 :
  result <$> simulation_cec and2 wide41 None = Some (Some false).
Proof. by vm_compute. Qed.

(** * Further properties of the planner *)

(** X1: every plan the planner returns for an input count that fits
    [uint32_t] has a node count from 1 to 2^24 - 1, a split count between
    0 and min(N, 31), at most 31 enumerated inputs and a round count
    2^(N - split_var) between 1 and 2^31. *)
Theorem planner_invariants size N st :
  plan size N = Some st ->
  0 <= N < 2 ^ 32 ->
  1 <= size < 2 ^ 24
  /\ 0 <= split_var st <= N /\ split_var st <= 31
  /\ N - split_var st <= 31
  /\ rounds st = 2 ^ (N - split_var st)
  /\ 1 <= rounds st <= 2 ^ 31.
Proof.
  intros Hplan HN.
  destruct (plan_Some size N st Hplan HN) as (Hsv & _ & H1 & H2 & H3 & H4 & H5).
  apply split_var_Some in Hsv as (Hsize & _); [|lia].
  repeat split; lia.
Qed.

Lemma planner_invariants_witness :
  1 <= 16600000 < 2 ^ 24
  /\ 0 <= split_var (Build_stats 1 4) <= 3 /\ split_var (Build_stats 1 4) <= 31
  /\ 3 - split_var (Build_stats 1 4) <= 31
  /\ rounds (Build_stats 1 4) = 2 ^ (3 - split_var (Build_stats 1 4))
  /\ 1 <= rounds (Build_stats 1 4) <= 2 ^ 31.
Proof. apply (planner_invariants 16600000 3); [by vm_compute | lia]. Defined.

(** X2: [max_m_] returns a value exactly for the node counts from 1 to
    16744511, that is, while 2^29/size - 32 exceeds 1/16; outside, the
    conversion to [uint32_t] is undefined. *)
Theorem max_m_domain size :
  is_Some (max_m_ size) <-> 1 <= size <= 16744511.
Proof.
  split.
  - intros [m Hm]. pose proof (max_m_Some _ _ Hm) as [Hs _].
    destruct (planner_arg size ltac:(lia)) as [Hnum Hden].
    unfold max_m_ in Hm.
    destruct (Z.eqb_spec size 0); [done|].
    destruct (Z.leb_spec (Qnum (log_arg size)) 0) as [|Hpos]; [done|].
    unfold double_to_uint32 in Hm.
    destruct (Z.leb_spec 0 (trunc_log2_plus (log_arg size) 3)) as [Ht|]; [|done].
    assert (Hfl : -4 <= Qlog2_floor (log_arg size)).
    { unfold trunc_log2_plus in Ht. case_match; lia. }
    destruct (Qlog2_floor_spec (log_arg size) Hpos) as [Hlow _].
    apply (Qle_pow2_mono _ (-4)) in Hlow; [|done].
    apply (planner_arg_ge size (-4) 4) in Hlow; lia.
  - intros Hs. destruct (planner_arg size ltac:(lia)) as [Hnum Hden].
    pose proof (planner_log_lt_29 size ltac:(lia)) as Hlt.
    assert (Hge : -4 <= Qlog2_floor (log_arg size)).
    { apply Qlog2_floor_ge; [lia|]. apply (planner_arg_ge size (-4) 4); lia. }
    unfold max_m_.
    destruct (Z.eqb_spec size 0); [lia|].
    destruct (Z.leb_spec (Qnum (log_arg size)) 0); [lia|].
    assert (0 <= trunc_log2_plus (log_arg size) 3 <= 31) as Ht.
    { unfold trunc_log2_plus.
      destruct (Z.leb_spec 0 (Qlog2_floor (log_arg size) + 3)); cbn [orb]; [lia|].
      assert (Qlog2_floor (log_arg size) = -4) as -> by lia.
      assert (Qeq_pow2 (-4) (log_arg size) = false) as ->; [|lia].
      unfold Qeq_pow2. rewrite Hnum, Hden. apply Z.eqb_neq.
      change (2 ^ Z.max 0 (-4)) with 1. change (2 ^ Z.max 0 (- -4)) with 16. lia. }
    unfold double_to_uint32.
    destruct (Z.leb_spec 0 (trunc_log2_plus (log_arg size) 3)); [|lia].
    destruct (Z.ltb_spec (trunc_log2_plus (log_arg size) 3) (2 ^ 32)); [|lia].
    by eexists.
Qed.

Lemma max_m_max_0 size m :
  max_m_ size = Some m -> m = Z.max 0 (maxSplit size).
Proof.
  unfold max_m_, maxSplit.
  destruct (Z.eqb_spec size 0); [done|].
  destruct (Z.leb_spec (Qnum (log_arg size)) 0); [done|].
  unfold double_to_uint32.
  destruct (Z.leb_spec 0 (trunc_log2_plus (log_arg size) 3)) as [Ht|]; [|done].
  destruct (Z.ltb_spec (trunc_log2_plus (log_arg size) 3) (2 ^ 32)); [|done].
  cbn [andb]. intros [= <-]. revert Ht. unfold trunc_log2_plus.
  case_match; [|lia].
  destruct (Z.leb_spec 0 (Qlog2_floor (log_arg size) + 3)); lia.
Qed.

(** X3: a value returned by [max_m_] is the formula
    floor(log2(2^29/size - 32)) + 3 clamped at 0 from below. *)
Theorem max_m_clamped size m :
  max_m_ size = Some m -> m = Z.max 0 (maxSplit size).
Proof. apply max_m_max_0. Qed.

Lemma max_m_clamped_witness : 0 = Z.max 0 (maxSplit 16720000).
Proof. apply max_m_clamped. by vm_compute. Defined.

Lemma maxSplit_antitone s1 s2 :
  0 < s1 <= s2 -> s2 < 2 ^ 24 -> maxSplit s2 <= maxSplit s1.
Proof.
  intros Hs Hlt. unfold maxSplit.
  destruct (planner_arg s1 ltac:(lia)) as [Hnum1 _].
  destruct (planner_arg s2 ltac:(lia)) as [Hnum2 _].
  destruct (Qlog2_floor_spec (log_arg s2) ltac:(lia)) as [Hlow _].
  set (k := Qlog2_floor (log_arg s2)) in *.
  assert (k <= Qlog2_floor (log_arg s1)); [|lia].
  apply Qlog2_floor_ge; [lia|].
  apply (planner_arg_ge s2 k (Z.abs k)) in Hlow; [|lia..].
  apply (planner_arg_ge s1 k (Z.abs k)); [lia..|].
  assert (0 < 2 ^ (k + Z.abs k)) by (apply Z.pow_pos_nonneg; lia).
  assert (0 < 2 ^ Z.abs k) by (apply Z.pow_pos_nonneg; lia).
  nia.
Qed.

(** X4: a larger node storage never gets more split variables: when
    [max_m_] returns for two node counts, the value for the larger count
    is at most the value for the smaller one. *)
Theorem max_m_antitone s1 s2 m1 m2 :
  s1 <= s2 ->
  max_m_ s1 = Some m1 -> max_m_ s2 = Some m2 -> m2 <= m1.
Proof.
  intros Hs H1 H2.
  pose proof (max_m_Some _ _ H1) as [? _]. pose proof (max_m_Some _ _ H2) as [? _].
  apply max_m_max_0 in H1, H2. subst.
  pose proof (maxSplit_antitone s1 s2 ltac:(lia) ltac:(lia)). lia.
Qed.

Lemma max_m_antitone_witness : 8 <= 31.
Proof. apply (max_m_antitone 1 8388608); [lia | by vm_compute | by vm_compute]. Defined.

Lemma plan_of_max_m size N m :
  max_m_ size = Some m ->
  0 <= N < 2 ^ 32 -> N - Z.min N m <= 31 ->
  plan size N = Some (Build_stats (Z.min N m) (2 ^ (N - Z.min N m))).
Proof.
  intros Hm HN Hd. pose proof (max_m_Some _ _ Hm) as [_ Hb].
  unfold plan, split_var_. rewrite Hm. cbn [mbind option_bind].
  replace (if m <? N then m else N) with (Z.min N m) by (case_match; lia).
  unfold rounds_, double_to_uint32. rewrite wrap32_small by lia.
  destruct (Z.ltb_spec (N - Z.min N m) 32); [|lia].
  assert (0 < 2 ^ (N - Z.min N m)) by (apply Z.pow_pos_nonneg; lia).
  assert (2 ^ (N - Z.min N m) <= 2 ^ 31) by (apply Z.pow_le_mono_r; lia).
  cases_cmp; try lia. done.
Qed.

Lemma plan_small_network size N :
  1 <= size <= 5592405 -> 0 <= N <= 40 ->
  exists st,
    plan size N = Some st
    /\ Z.min N 9 <= split_var st <= N
    /\ rounds st = 2 ^ (N - split_var st)
    /\ rounds st <= 2 ^ 31.
Proof.
  intros Hs HN.
  destruct (max_m_formula size ltac:(lia)) as [Hm Hb].
  assert (9 <= maxSplit size).
  { unfold maxSplit. destruct (planner_arg size ltac:(lia)) as [Hnum Hden].
    assert (6 <= Qlog2_floor (log_arg size)); [|lia].
    apply Qlog2_floor_ge; [lia|]. apply (planner_arg_ge size 6 0); lia. }
  eexists. split; [apply (plan_of_max_m _ _ _ Hm); lia|].
  cbn [split_var rounds]. split; [lia|]. split; [done|].
  apply Z.pow_le_mono_r; lia.
Qed.

(** X5: under the ceiling of 40 primary inputs and with at most 5592405
    nodes (2^29/size - 32 at least 64) the planner returns a plan, with
    at least min(N, 9) split variables, 2^(N - split_var) rounds and at
    most 2^31 of them. *)
Theorem plan_under_ceiling size N :
  1 <= size <= 5592405 -> 0 <= N <= 40 ->
  exists st,
    plan size N = Some st
    /\ Z.min N 9 <= split_var st <= N
    /\ rounds st = 2 ^ (N - split_var st)
    /\ rounds st <= 2 ^ 31.
Proof. apply plan_small_network. Qed.

Lemma plan_under_ceiling_witness :
  exists st,
    plan 5000000 40 = Some st
    /\ Z.min 40 9 <= split_var st <= 40
    /\ rounds st = 2 ^ (40 - split_var st)
    /\ rounds st <= 2 ^ 31.
Proof. apply plan_under_ceiling; lia. Defined.

(** * Further properties of the pattern generator *)

Lemma fmap_const_replicate {A B} (f : A -> B) (c : B) (l : list A) :
  Forall (fun x => f x = c) l -> f <$> l = replicate (length l) c.
Proof. induction 1 as [|x l Hx _ IH]; [done|]. cbn. by rewrite Hx, IH. Qed.

(** X9: for 0 <= split_var < N < 2^64 the patterns of the enumerated
    inputs of a round are defined exactly when there are at most 32 such
    inputs: beyond, the last input shifts the [int] round counter by 32
    or more. *)
Theorem enumerated_patterns_defined sv N r :
  0 <= sv < N -> N < 2 ^ 64 ->
  is_Some (enumerated_patterns sv N r) <-> N - sv <= 32.
Proof.
  intros HS HN. unfold enumerated_patterns.
  rewrite mapM_is_Some, Forall_seqZ.
  assert (Hone : forall i, sv + 1 <= i < sv + 1 + (N - sv) ->
            is_Some (get_pattern_ (Build_stats sv 0) i r (new_truth_table sv))
            <-> i - sv - 1 < 32).
  { intros i Hi. unfold get_pattern_, shr_int. cbn [split_var].
    destruct (Z.leb_spec i sv); [lia|]. rewrite wrap64_small by lia.
    destruct (Z.leb_spec 32 (i - sv - 1)); cbn [mbind option_bind].
    - split; [by intros [? ?]|lia].
    - split; [lia|]. intros _. case_match; by eexists. }
  split.
  - intros H. specialize (H N ltac:(lia)). cbn in H. apply Hone in H; lia.
  - intros H i Hi. cbn. apply Hone; lia.
Qed.

Lemma enumerated_patterns_defined_witness :
  is_Some (enumerated_patterns 1 34 5) <-> 34 - 1 <= 32.
Proof. apply enumerated_patterns_defined; lia. Defined.

(** X10: with at most 31 enumerated inputs, round 0 pins every
    enumerated input to the all-one table and the last round,
    2^(N - split_var) - 1, pins every one to the all-zero table. *)
Theorem first_and_last_round sv N :
  0 <= sv -> 0 <= N - sv <= 31 ->
  enumerated_patterns sv N 0
  = Some (replicate (Z.to_nat (N - sv)) (const1_table sv))
  /\ enumerated_patterns sv N (2 ^ (N - sv) - 1)
     = Some (replicate (Z.to_nat (N - sv)) (new_truth_table sv)).
Proof.
  intros HS HN.
  assert (0 < 2 ^ (N - sv)) by (apply Z.pow_pos_nonneg; lia).
  rewrite !enumerated_patterns_eq by lia. split; f_equal.
  - rewrite <- (length_seqZ (sv + 1) (N - sv)).
    apply fmap_const_replicate, Forall_seqZ. intros i Hi.
    by rewrite Z.bits_0.
  - rewrite <- (length_seqZ (sv + 1) (N - sv)).
    apply fmap_const_replicate, Forall_seqZ. intros i Hi.
    replace (2 ^ (N - sv) - 1) with (Z.ones (N - sv))
      by (rewrite Z.ones_equiv; lia).
    by rewrite Z.ones_spec_low by lia.
Qed.

Lemma first_and_last_round_witness :
  enumerated_patterns 1 3 0
  = Some (replicate (Z.to_nat (3 - 1)) (const1_table 1))
  /\ enumerated_patterns 1 3 (2 ^ (3 - 1) - 1)
     = Some (replicate (Z.to_nat (3 - 1)) (new_truth_table 1)).
Proof. apply first_and_last_round; lia. Defined.

Lemma update_pi_insert st r i ps ps1 :
  update_pi st r ps i = Some ps1 ->
  exists p, ps1 = <[i := p]> ps
            /\ forall ps0, update_pi st r ps0 i = Some (<[i := p]> ps0).
Proof.
  unfold update_pi.
  destruct (if i <=? split_var st
            then create_nth_var (new_truth_table (split_var st)) (wrap8 (wrap64 (i - 1)))
            else Some (new_truth_table (split_var st))) as [t|]; [|done].
  cbn [mbind option_bind].
  destruct (get_pattern_ st i r t) as [p|]; [|done].
  cbn [mbind option_bind]. intros [= <-]. by exists p.
Qed.

(** X8: when the [foreach_pi] callback of a round has run over the
    inputs, the entries of all other nodes are as before, every input has
    an entry, and the entry of an input does not depend on what the map
    held before the round. *)
Theorem foreach_pi_frame st r l : forall ps ps',
  foldl_opt (update_pi st r) ps l = Some ps' ->
  (forall n, n ∉ l -> ps' !! n = ps !! n)
  /\ (forall n, n ∈ l -> is_Some (ps' !! n))
  /\ (forall ps0 ps0',
        foldl_opt (update_pi st r) ps0 l = Some ps0' ->
        forall n, n ∈ l -> ps0' !! n = ps' !! n).
Proof.
  induction l as [|i l IH]; intros ps ps' H.
  - injection H as <-. split; [done|].
    split; [intros n Hn|intros ps0 ps0' _ n Hn]; by apply elem_of_nil in Hn.
  - cbn [foldl_opt] in H.
    destruct (update_pi st r ps i) as [ps1|] eqn:Hi; [|done].
    cbn [mbind option_bind] in H.
    destruct (update_pi_insert _ _ _ _ _ Hi) as (p & -> & Hany).
    destruct (IH _ _ H) as (Hframe & Hin & Hindep).
    split; [|split].
    + intros n Hn. apply not_elem_of_cons in Hn as [Hne Hn].
      rewrite Hframe by done. by rewrite lookup_insert_ne.
    + intros n Hn. destruct (decide (n ∈ l)) as [|Hnl]; [by apply Hin|].
      apply elem_of_cons in Hn as [->|]; [|done].
      rewrite Hframe by done. rewrite lookup_insert_eq. by eexists.
    + intros ps0 ps0' H0 n Hn. cbn [foldl_opt] in H0.
      rewrite Hany in H0. cbn [mbind option_bind] in H0.
      destruct (decide (n ∈ l)) as [Hl|Hnl]; [by eapply Hindep|].
      apply elem_of_cons in Hn as [->|]; [|done].
      destruct (IH _ _ H0) as (Hframe0 & _ & _).
      rewrite Hframe, Hframe0 by done. by rewrite !lookup_insert_eq.
Qed.

Lemma foreach_pi_frame_witness :
  (forall n, n ∉ [1; 2; 3] ->
     write_patterns 1 2 {[7 := new_truth_table 1]} [1; 2; 3] !! n
     = ({[7 := new_truth_table 1]} : gmap node dynamic_truth_table) !! n)
  /\ (forall n, n ∈ [1; 2; 3] ->
        is_Some (write_patterns 1 2 {[7 := new_truth_table 1]} [1; 2; 3] !! n))
  /\ (forall ps0 ps0',
        foldl_opt (update_pi (Build_stats 1 4) 2) ps0 [1; 2; 3] = Some ps0' ->
        forall n, n ∈ [1; 2; 3] ->
          ps0' !! n = write_patterns 1 2 {[7 := new_truth_table 1]} [1; 2; 3] !! n).
Proof.
  apply (foreach_pi_frame (Build_stats 1 4) 2 [1; 2; 3] {[7 := new_truth_table 1]}).
  by vm_compute.
Defined.

(** * Further properties of the entry point *)

Section more_driver_properties.
Context {Ntk : Type} `{!Network Ntk} `{!Collaborators Ntk}.


(** X13: the verdict and the trace of [simulation_cec] do not depend on
    the stats pointer, and nothing is written when the pointer is null. *)
Theorem stats_pointer_independence (ntk1 ntk2 : Ntk) pst pst' :
  (fun o => (result o, trace o)) <$> simulation_cec ntk1 ntk2 pst
  = (fun o => (result o, trace o)) <$> simulation_cec ntk1 ntk2 pst'
  /\ pst_after <$> simulation_cec ntk1 ntk2 None
     = (fun _ => None) <$> simulation_cec ntk1 ntk2 pst.
Proof.
  unfold simulation_cec.
  destruct (40 <? num_pis ntk1); [done|].
  destruct (miter ntk1 ntk2) as [m|]; [|done].
  by destruct (run m _ _) as [[[v st] evs]|].
Qed.

End more_driver_properties.

